(** * Model selection and recognition for the ASL word recognizer

    A shallow embedding of [my_model_selectors.py] (the four model
    selectors) and [my_recognizer.py] (the recognizer), with the
    properties of their selection loops.

    Conventions of the embedding:
    - A Python float is a binary64 number ([float]), with its infinities
      and its NaN; sums, products, quotients and comparisons are those of
      IEEE 754, as Python and numpy compute them.
    - A raised exception is [None] in the [option] monad; the Python value
      [None] held by a variable is [None] of an [option Model] value.
    - A dict is the list of its items, in the order of iteration, with
      distinct keys ([pydict]).
    - The trainer and the scorer ([GaussianHMM(...).fit] and [model.score]
      of hmmlearn) and [np.log] are parameters of the development. *)

From Stdlib Require Import ZArith Floats.
From stdpp Require Import gmap strings list fin_maps.

Open Scope Z_scope.

Set Default Proof Using "Type".

(** ** Python numbers *)

(** The float nearest to an integer (ties to even), as [float(z)] computes
    it where it does not raise; an integer too large in magnitude gives an
    infinity here. *)
Definition float_of_Z (z : Z) : float :=
  SF2Prim (binary_normalize prec emax z 0 false).

(** The conversion of a Python integer that takes part in float arithmetic:
    it raises [OverflowError] when the integer is too large for a float. *)
Definition py_float (z : Z) : option float :=
  let f := float_of_Z z in
  if is_infinity f then None else Some f.

(** [a < b], [a > b], [a <= b] and [a == b] on floats. *)
Definition float_lt (a b : float) : bool := PrimFloat.ltb a b.
Definition float_gt (a b : float) : bool := float_lt b a.
Definition float_le (a b : float) : bool := PrimFloat.leb a b.
Definition float_eq (a b : float) : bool := PrimFloat.eqb a b.

(** The place of a float in the order of the comparisons: nothing for NaN,
    otherwise a triple ordered lexicographically (the class, then the
    exponent and the mantissa, negated below zero). *)
Definition sf_key (f : spec_float) : option (Z * Z * Z) :=
  match f with
  | S754_nan => None
  | S754_infinity true => Some (-2, 0, 0)
  | S754_infinity false => Some (2, 0, 0)
  | S754_zero _ => Some (0, 0, 0)
  | S754_finite true m e => Some (-1, - e, Z.neg m)
  | S754_finite false m e => Some (1, e, Z.pos m)
  end.

Definition float_key (f : float) : option (Z * Z * Z) := sf_key (Prim2SF f).

Definition key_lt (a b : Z * Z * Z) : Prop :=
  a.1.1 < b.1.1 ∨ (a.1.1 = b.1.1 ∧ (a.1.2 < b.1.2 ∨ (a.1.2 = b.1.2 ∧ a.2 < b.2))).

Definition key_eq (a b : Z * Z * Z) : Prop :=
  a.1.1 = b.1.1 ∧ a.1.2 = b.1.2 ∧ a.2 = b.2.

Definition key_le (a b : Z * Z * Z) : Prop := key_lt a b ∨ key_eq a b.

Definition keys_rel (rel : Z * Z * Z → Z * Z * Z → Prop) (a b : float) : Prop :=
  match float_key a, float_key b with
  | Some ka, Some kb => rel ka kb
  | _, _ => False
  end.

(** [range(lo, hi + 1)] *)
Definition range_incl (lo hi : Z) : list Z := seqZ lo (hi + 1 - lo).

(** The shape the selection loops share: a candidate [c] that yields a value
    [a] with score [v] replaces the running best when [cmp v best_score]
    holds; a candidate that raises leaves the state as it is. *)
Definition best_step {A C : Type} (cmp : float → float → bool)
    (cand : C → option (A * float)) (st : A * float) (c : C) : A * float :=
  match cand c with
  | Some (a, v) => if cmp v st.2 then (a, v) else st
  | None => st
  end.

(** [l !! i] is the winner of a loop over [l] from the initial score
    [start], with value [a] and score [v]: its score beats [start], no
    earlier candidate that was scored is as good ([weak u v] reads "[u] is
    at least as good as [v]"), and no later one beats it. *)
Definition winner_at {A C : Type} (cmp weak : float → float → bool) (start : float)
    (cand : C → option (A * float)) (l : list C) (i : nat) (a : A) (v : float) : Prop :=
  (∃ c, l !! i = Some c ∧ cand c = Some (a, v)) ∧
  cmp v start = true ∧
  (∀ j c a' v', (j < i)%nat → l !! j = Some c → cand c = Some (a', v') → weak v' v = false) ∧
  (∀ j c a' v', (i < j)%nat → l !! j = Some c → cand c = Some (a', v') → cmp v' v = false).





(** ** Data *)

(** One frame is a feature vector; a sequence is one recorded instance of a
    word; [X] is the concatenation of the sequences of a word and [lengths]
    the length of each of them. *)
Abbreviation frame := (list float).
Abbreviation sequence := (list frame).
Abbreviation Xlengths := (list frame * list nat)%type.

(** A dict with words as keys: its items in the order of iteration. *)
Record pydict (V : Type) : Type := {
  dict_items : list (string * V);
  dict_NoDup : NoDup (dict_items.*1)
}.
Arguments dict_items {V} _.
Arguments dict_NoDup {V} _.

(** [d[k]], where a missing key raises, and [len(d)]. *)
Definition dict_get {V : Type} (d : pydict V) (k : string) : option V :=
  (list_to_map (dict_items d) : gmap string V) !! k.

Definition dict_len {V : Type} (d : pydict V) : nat := length (dict_items d).

(** The fields that [ModelSelector.__init__] stores. *)
Record ModelSelector : Type := {
  words : pydict (list sequence);
  hwords : pydict Xlengths;
  sequences : list sequence;
  X : list frame;
  lengths : list nat;
  this_word : string;
  n_constant : Z;
  min_n_components : Z;
  max_n_components : Z;
  random_state : Z;
  verbose : bool
}.

(** [ModelSelector.__init__]; a missing key raises. *)
Definition init (all_word_sequences : pydict (list sequence))
    (all_word_Xlengths : pydict Xlengths) (word : string)
    (n_const min_n max_n seed : Z) (verb : bool) : option ModelSelector :=
  seqs ← dict_get all_word_sequences word;
  xl ← dict_get all_word_Xlengths word;
  Some {| words := all_word_sequences; hwords := all_word_Xlengths;
          sequences := seqs; X := xl.1; lengths := xl.2; this_word := word;
          n_constant := n_const; min_n_components := min_n;
          max_n_components := max_n; random_state := seed; verbose := verb |}.

(** ** Library calls of the cross-validation selector *)

(** The selector calls [KFold()] of scikit-learn with the default arguments.
    The default number of folds is 3 in the releases the project was written
    for, and the specification states the same default. *)
Definition KFold_n_splits : nat := 3.

(** [KFold(n_splits).split(...)] over [n_samples] samples, after the
    documentation of scikit-learn: folds over the indices
    [0 .. n_samples - 1], without shuffling. The first
    [n_samples % n_splits] folds hold [n_samples // n_splits + 1]
    consecutive indices, the others [n_samples // n_splits]; each fold is
    the pair of the remaining indices (train) and its own (test). Asking
    for more folds than there are samples raises [ValueError]. *)
Definition fold_sizes (n_splits n_samples : nat) : list nat :=
  map (λ i, (n_samples / n_splits
             + (if decide (i < n_samples mod n_splits) then 1 else 0))%nat)
      (seq 0 n_splits).

Fixpoint fold_tests (current : nat) (sizes : list nat) : list (list nat) :=
  match sizes with
  | [] => []
  | fold_size :: rest =>
      seq current fold_size :: fold_tests (current + fold_size) rest
  end.

Definition KFold_split (n_splits n_samples : nat) : option (list (list nat * list nat)) :=
  if decide (n_samples < n_splits)%nat then None
  else Some (map (λ test, (filter (λ i, i ∉ test) (seq 0 n_samples), test))
                 (fold_tests 0 (fold_sizes n_splits n_samples))).

(** Modelled from the spec: [combine_sequences] of [asl_utils], which is
    not among the sources. It builds the flattened (matrix, lengths) view of
    the sequences at the given indices: the frames of those sequences one
    after the other, and the length of each. An index out of range
    raises. *)
Definition combine_sequences (split_index_list : list nat)
    (seqs : list sequence) : option Xlengths :=
  sequences_fold ← mapM (λ idx, seqs !! idx) split_index_list;
  Some (concat sequences_fold, map length sequences_fold).

(** [a / b] on two Python integers: true division, which raises
    [ZeroDivisionError] on a zero divisor. Python rounds the exact quotient;
    the quotient of the two converted integers is the same float as long as
    both convert exactly (below [2^53] in magnitude), as the counts of this
    program do. *)
Definition int_truediv (a b : Z) : option float :=
  if decide (b = 0) then None else Some (float_of_Z a / float_of_Z b)%float.

(** ** A toy trainer and two words for the worked examples *)

(** A dict from a list of items whose keys are checked to be distinct. *)
Definition dict_of {V : Type} (l : list (string * V))
    (H : Is_true (bool_decide (NoDup (l.*1)))) : pydict V :=
  {| dict_items := l; dict_NoDup := bool_decide_unpack _ H |}.

(** The toy model is its number of states. The fit raises for the
    complexities listed in [bad]; the log-likelihood of data of [k] frames
    under the model of [m] states is [(m - 20) k]. *)
Definition toy_fit (bad : list Z) (n seed : Z) (x : list frame) (l : list nat) : option Z :=
  if decide (n ∈ bad) then None else Some n.

Definition toy_score (m : Z) (x : list frame) (l : list nat) : option float :=
  Some (float_of_Z ((m - 20) * Z.of_nat (length x))).



(** A stand-in for [np.log], exact at 1. *)
Definition toy_log (x : float) : float := (x - 1)%float.

(** FISH has three recorded instances of one frame, CAT two instances. *)
Definition fish_sequences : list sequence := [[[1%float]]; [[2%float]]; [[3%float]]].
Definition fish_Xlengths : Xlengths := ([[1%float]; [2%float]; [3%float]], [1; 1; 1]%nat).
Definition cat_sequences : list sequence := [[[4%float]; [5%float]]; [[6%float]]].
Definition cat_Xlengths : Xlengths := ([[4%float]; [5%float]; [6%float]], [2; 1]%nat).

Definition toy_sequences : pydict (list sequence) :=
  dict_of [("FISH", fish_sequences); ("CAT", cat_sequences)] I.
Definition toy_Xlengths : pydict Xlengths :=
  dict_of [("FISH", fish_Xlengths); ("CAT", cat_Xlengths)] I.

(** The selector of FISH among the two words, of CAT among the two words,
    and of FISH alone, each over the complexities 2 to 4. *)
Definition fish_selector : ModelSelector :=
  {| words := toy_sequences; hwords := toy_Xlengths;
     sequences := fish_sequences; X := fish_Xlengths.1; lengths := fish_Xlengths.2;
     this_word := "FISH"; n_constant := 3;
     min_n_components := 2; max_n_components := 4;
     random_state := 14; verbose := false |}.

Definition cat_selector : ModelSelector :=
  {| words := toy_sequences; hwords := toy_Xlengths;
     sequences := cat_sequences; X := cat_Xlengths.1; lengths := cat_Xlengths.2;
     this_word := "CAT"; n_constant := 3;
     min_n_components := 2; max_n_components := 4;
     random_state := 14; verbose := false |}.

Definition lone_fish_selector : ModelSelector :=
  {| words := dict_of [("FISH", fish_sequences)] I;
     hwords := dict_of [("FISH", fish_Xlengths)] I;
     sequences := fish_sequences; X := fish_Xlengths.1; lengths := fish_Xlengths.2;
     this_word := "FISH"; n_constant := 3;
     min_n_components := 2; max_n_components := 4;
     random_state := 14; verbose := false |}.



(** The selector of FISH over an empty range of complexities. *)
Definition empty_range_selector : ModelSelector :=
  {| words := toy_sequences; hwords := toy_Xlengths;
     sequences := fish_sequences; X := fish_Xlengths.1; lengths := fish_Xlengths.2;
     this_word := "FISH"; n_constant := 3;
     min_n_components := 5; max_n_components := 4;
     random_state := 14; verbose := false |}.

(** Models for the recognizer: one per word; the same model for both words,
    so that every item ties; and CAT without a model (its selector returned
    no model). The test set holds the data of FISH, then of CAT; the
    relabelled one holds the same data under other ids. *)
Definition toy_models : list (string * option Z) := [("FISH", Some 5); ("CAT", Some 3)].
Definition failing_models : list (string * option Z) := [("FISH", Some 5); ("CAT", None)].
Definition toy_test_set : list (Z * Xlengths) := [(0, fish_Xlengths); (1, cat_Xlengths)].
Definition relabelled_test_set : list (Z * Xlengths) :=
  [(7, fish_Xlengths); (3, cat_Xlengths)].

Section Selectors.

(** The fitted model is an opaque handle of the trainer. *)
Context {Model : Type}.

(** [GaussianHMM(n_components, covariance_type="diag", n_iter=1000,
    random_state, verbose=False).fit(X, lengths)]: the arguments that vary
    are the number of states, the seed and the data. [None] when it
    raises. *)
Variable GaussianHMM_fit : Z → Z → list frame → list nat → option Model.

(** [model.score(X, lengths)]: the log-likelihood, a float that may be an
    infinity or NaN; [None] when the call raises. *)
Variable hmm_score : Model → list frame → list nat → option float.

(** [np.log] on a float. *)
Variable np_log : float → float.

(** [m.score(X, lengths)] on a variable that holds a model or Python's
    [None]: on [None] the attribute lookup raises. *)
Definition py_score (m : option Model) (x : list frame) (l : list nat) : option float :=
  match m with
  | Some hmm => hmm_score hmm x l
  | None => None
  end.

(** [ModelSelector.base_model]: the fitted model, or Python's [None] when
    the fit raised; it never raises itself. The printing under [verbose]
    has no effect on the result. *)
Definition base_model (self : ModelSelector) (num_states : Z) : option Model :=
  match GaussianHMM_fit num_states (random_state self) (X self) (lengths self) with
  | Some hmm_model => Some hmm_model
  | None => None
  end.

(** *** SelectorConstant *)

Definition select_constant (self : ModelSelector) : option Model :=
  let best_num_components := n_constant self in
  base_model self best_num_components.

(** *** SelectorBIC *)

(** The number of parameters [p], an integer, and the criterion
    [-2*curr_score + p*np.log(len(self.lengths))] as the loop body computes
    it in floats; the conversion of [p] raises when [p] is too large. *)
Definition bic_params (self : ModelSelector) (number_of_states : Z) : Z :=
  number_of_states ^ 2 + 2 * number_of_states * Z.of_nat (length (lengths self)) - 1.

Definition bic_value (self : ModelSelector) (number_of_states : Z)
    (curr_score : float) : option float :=
  p ← py_float (bic_params self number_of_states);
  Some (float_of_Z (-2) * curr_score
        + p * np_log (float_of_Z (Z.of_nat (length (lengths self)))))%float.

(** The loop state: [(best_model, best_score)]. *)
Definition sel_state : Type := (option Model * float)%type.

(** The statements of the [try] block before the comparison: the candidate
    model and its criterion, [None] when one of them raises. *)
Definition bic_try (self : ModelSelector) (number_of_states : Z) : option (option Model * float) :=
  let current_model := base_model self number_of_states in
  curr_score ← py_score current_model (X self) (lengths self);
  bic ← bic_value self number_of_states curr_score;
  Some (current_model, bic).

(** One iteration of the loop; [except: pass] leaves the state as it is. *)
Definition bic_step (self : ModelSelector) (st : sel_state) (number_of_states : Z) : sel_state :=
  match bic_try self number_of_states with
  | Some (current_model, bic) =>
      if float_lt bic st.2 then (current_model, bic) else st
  | None => st
  end.

(** The candidates, in the order the loops visit them. *)
Definition candidates (self : ModelSelector) : list Z :=
  range_incl (min_n_components self) (max_n_components self).

Definition bic_loop (self : ModelSelector) : sel_state :=
  foldl (bic_step self) (None, infinity) (candidates self).

Definition select_bic (self : ModelSelector) : option Model := (bic_loop self).1.

(** *** SelectorDIC *)

(** The inner loop over [self.hwords]: the scores of the other words under
    the candidate model, added to [score_sum] in the order of the dict. *)
Fixpoint dic_others (current_model : option Model) (target : string)
    (ws : list (string * Xlengths)) (score_sum : float) : option float :=
  match ws with
  | [] => Some score_sum
  | (word, (x_w, l_w)) :: rest =>
      if decide (word ≠ target) then
        s ← py_score current_model x_w l_w;
        dic_others current_model target rest (score_sum + s)%float
      else dic_others current_model target rest score_sum
  end.

Definition dic_try (self : ModelSelector) (number_of_states : Z) : option (option Model * float) :=
  let current_model := base_model self number_of_states in
  curr_score ← py_score current_model (X self) (lengths self);
  score_sum ← dic_others current_model (this_word self) (dict_items (hwords self)) 0%float;
  inv ← int_truediv 1 (Z.of_nat (dict_len (hwords self)) - 1);
  let dic := (curr_score - inv * score_sum)%float in
  Some (current_model, dic).

Definition dic_step (self : ModelSelector) (st : sel_state) (number_of_states : Z) : sel_state :=
  match dic_try self number_of_states with
  | Some (current_model, dic) =>
      if float_gt dic st.2 then (current_model, dic) else st
  | None => st
  end.

Definition dic_loop (self : ModelSelector) : sel_state :=
  foldl (dic_step self) (None, neg_infinity) (candidates self).

Definition select_dic (self : ModelSelector) : option Model := (dic_loop self).1.

(** *** SelectorCV *)

(** The loop over the folds, from the running [(current_score, count)]. A
    statement that raises ends the loop; the two variables keep the values
    they had, and these are what the code after the [try] reads. *)
Fixpoint cv_folds (self : ModelSelector) (current_model : option Model)
    (folds : list (list nat * list nat)) (acc : float * nat) : float * nat :=
  match folds with
  | [] => acc
  | (train, test) :: rest =>
      match
        _ ← combine_sequences train (sequences self);
        '(test_x, test_lengths) ← combine_sequences test (sequences self);
        py_score current_model test_x test_lengths
      with
      | Some s => cv_folds self current_model rest ((acc.1 + s)%float, (acc.2 + 1)%nat)
      | None => acc
      end
  end.

(** The [try] block: the values of [current_model], [current_score] and
    [count] when it is left, by its end or by an exception. *)
Definition cv_try (self : ModelSelector) (number_of_states : Z) : option Model * (float * nat) :=
  let current_model := base_model self number_of_states in
  match KFold_split KFold_n_splits (length (sequences self)) with
  | Some folds => (current_model, cv_folds self current_model folds (0%float, 0%nat))
  | None => (current_model, (0%float, 0%nat))
  end.

(** The average that follows the [try] block; the count, at most the number
    of folds, converts to a float exactly. *)
Definition cv_average (current_score : float) (count : nat) : float :=
  let count := if decide (count = 0%nat) then 1%nat else count in
  (current_score / float_of_Z (Z.of_nat count))%float.

Definition cv_step (self : ModelSelector) (st : sel_state) (number_of_states : Z) : sel_state :=
  let '(current_model, (current_score, count)) := cv_try self number_of_states in
  let average_score := cv_average current_score count in
  if float_gt average_score st.2 then (current_model, average_score) else st.

Definition cv_loop (self : ModelSelector) : sel_state :=
  foldl (cv_step self) (None, neg_infinity) (candidates self).

Definition select_cv (self : ModelSelector) : option Model := (cv_loop self).1.

(** *** The four strategies *)

Inductive selector : Type := SelectorConstant | SelectorBIC | SelectorDIC | SelectorCV.

Definition select (s : selector) (self : ModelSelector) : option Model :=
  match s with
  | SelectorConstant => select_constant self
  | SelectorBIC => select_bic self
  | SelectorDIC => select_dic self
  | SelectorCV => select_cv self
  end.

(** ** The recognizer *)

(** [all_scores.setdefault(w, current_score)] *)
Definition setdefault (w : string) (v : float) (all_scores : gmap string float) : gmap string float :=
  match all_scores !! w with
  | Some _ => all_scores
  | None => <[w := v]> all_scores
  end.

(** The state of the loop over the models: [(all_scores, best_score,
    best_word)]. *)
Definition rec_state : Type := (gmap string float * float * string)%type.

(** One iteration over [models.items()] for the test item [(x, x_lengths)]. *)
Definition recognize_word (item : Xlengths) (st : rec_state)
    (wm : string * option Model) : rec_state :=
  let '(all_scores, best_score, best_word) := st in
  let '(w, m) := wm in
  match py_score m item.1 item.2 with
  | Some current_score =>
      let '(best_score, best_word) :=
        if float_gt current_score best_score
        then (current_score, w) else (best_score, best_word) in
      (setdefault w current_score all_scores, best_score, best_word)
  | None => st
  end.

Definition recognize_item (models : list (string * option Model))
    (item : Xlengths) : rec_state :=
  foldl (recognize_word item) (∅, neg_infinity, EmptyString) models.

(** [recognize]: [models] in the order of [models.items()], the test set in
    the order of [test_set.get_all_Xlengths().items()]. *)
Definition recognize (models : list (string * option Model))
    (test_set : list (Z * Xlengths)) : list (gmap string float) * list string :=
  foldl (λ '(probabilities, guesses) '(i, item),
           let '(all_scores, _, best_word) := recognize_item models item in
           (probabilities ++ [all_scores], guesses ++ [best_word]))
        ([], []) test_set.

(** ** The criteria as the specification states them *)

(** [BIC = -2 L + p ln d] with [p = n^2 + 2 n d - 1], for [n] states, [d]
    training instances and the training log-likelihood [L], computed in
    floats; nothing when [p] is too large for a float. *)
Definition BIC (n : Z) (d : nat) (L : float) : option float :=
  p ← py_float (n ^ 2 + 2 * n * Z.of_nat d - 1);
  Some (float_of_Z (-2) * L + p * np_log (float_of_Z (Z.of_nat d)))%float.

(** The candidate [n] fits, with model [m], and scores its training data:
    its criterion is [b]. *)
Definition bic_candidate (self : ModelSelector) (n : Z) (m : Model) (b : float) : Prop :=
  base_model self n = Some m ∧
  ∃ L, hmm_score m (X self) (lengths self) = Some L ∧
       BIC n (length (lengths self)) L = Some b.

(** The log-likelihoods of the data of the listed words under [m], added to
    [acc] from left to right; [None] when one of them cannot be scored. *)
Fixpoint sum_scores (m : Model) (ws : list (string * Xlengths)) (acc : float) : option float :=
  match ws with
  | [] => Some acc
  | (_, (x_w, l_w)) :: rest =>
      s ← hmm_score m x_w l_w;
      sum_scores m rest (acc + s)%float
  end.

(** The words of the word map but the target, in the order of the dict, and
    [L_other]: the sum over them. *)
Definition other_words (self : ModelSelector) : list (string * Xlengths) :=
  filter (λ wx, wx.1 ≠ this_word self) (dict_items (hwords self)).

Definition L_other (self : ModelSelector) (m : Model) : option float :=
  sum_scores m (other_words self) 0%float.

(** [DIC = L_self - (1 / (M - 1)) L_other] for [M] words. *)
Definition DIC (L_self : float) (M : nat) (L_oth : float) : float :=
  (L_self - (1 / float_of_Z (Z.of_nat M - 1)) * L_oth)%float.

(** The candidate [n] fits, with model [m], and scores the target and every
    other word: its criterion is [d]. *)
Definition dic_candidate (self : ModelSelector) (n : Z) (m : Model) (d : float) : Prop :=
  base_model self n = Some m ∧
  ∃ L_self L_oth,
    hmm_score m (X self) (lengths self) = Some L_self ∧
    L_other self m = Some L_oth ∧
    d = DIC L_self (dict_len (hwords self)) L_oth.

(** The average of the candidate [n] in the cross-validation loop. *)
Definition cv_candidate_average (self : ModelSelector) (n : Z) : float :=
  cv_average (cv_try self n).2.1 (cv_try self n).2.2.

(** In the cross-validation loop every candidate is compared: with the
    value of [current_model] and this average. *)
Definition cv_outcome (self : ModelSelector) (n : Z) : option (option Model * float) :=
  Some ((cv_try self n).1, cv_candidate_average self n).

(** Every fold of the split fails to score under the candidate [n]. *)
Definition every_fold_fails (self : ModelSelector) (n : Z) : Prop :=
  ∀ folds train test test_x test_lengths,
    KFold_split KFold_n_splits (length (sequences self)) = Some folds →
    (train, test) ∈ folds →
    combine_sequences test (sequences self) = Some (test_x, test_lengths) →
    py_score (base_model self n) test_x test_lengths = None.

(** The held-out score of one fold under the candidate model, as the body
    of the loop over the folds computes it; [None] when a statement of the
    body raises. *)
Definition fold_score (self : ModelSelector) (current_model : option Model)
    (fold : list nat * list nat) : option float :=
  _ ← combine_sequences fold.1 (sequences self);
  '(test_x, test_lengths) ← combine_sequences fold.2 (sequences self);
  py_score current_model test_x test_lengths.

(** The scores that come before the first failure, and their sum from left
    to right. *)
Fixpoint scored_prefix (scores : list (option float)) : list float :=
  match scores with
  | Some s :: rest => s :: scored_prefix rest
  | _ => []
  end.

Definition sum_floats (acc : float) (l : list float) : float :=
  foldl (λ a s, (a + s)%float) acc l.


(** The running best of the recognizer's loop: [(best_word, best_score)]. *)
Definition rec_best (st : rec_state) : string * float := (st.2, st.1.2).

(** The candidates a strategy tries. *)
Definition tried (s : selector) (self : ModelSelector) : list Z :=
  match s with
  | SelectorConstant => [n_constant self]
  | _ => candidates self
  end.

(** ** Properties *)

(** *** The order of the floats *)

Lemma SFcompare_key (f1 f2 : spec_float) :
  match SFcompare f1 f2, sf_key f1, sf_key f2 with
  | Some Lt, Some k1, Some k2 => key_lt k1 k2
  | Some Eq, Some k1, Some k2 => key_eq k1 k2
  | Some Gt, Some k1, Some k2 => key_lt k2 k1
  | None, None, _ | None, _, None => True
  | _, _, _ => False
  end.
Proof.
  destruct f1 as [s1|s1| |s1 m1 e1], f2 as [s2|s2| |s2 m2 e2]; simpl;
    try destruct s1; try destruct s2; simpl; unfold key_lt, key_eq; simpl;
    try lia; try done.
  - destruct (Z.compare_spec e1 e2) as [->|He|He]; simpl; try lia.
    change (Pos.compare_cont Eq m1 m2) with (Pos.compare m1 m2).
    destruct (Pos.compare_spec m1 m2) as [->|Hm|Hm]; simpl; lia.
  - destruct (Z.compare_spec e1 e2) as [->|He|He]; simpl; try lia.
    change (Pos.compare_cont Eq m1 m2) with (Pos.compare m1 m2).
    destruct (Pos.compare_spec m1 m2) as [->|Hm|Hm]; simpl; lia.
Qed.

Lemma float_lt_key (a b : float) : float_lt a b = true ↔ keys_rel key_lt a b.
Proof.
  unfold float_lt, keys_rel, float_key. rewrite ltb_spec. unfold SFltb.
  pose proof (SFcompare_key (Prim2SF a) (Prim2SF b)) as H.
  destruct (SFcompare _ _) as [[| |]|], (sf_key (Prim2SF a)) as [ka|],
    (sf_key (Prim2SF b)) as [kb|];
    try done; unfold key_lt, key_eq in *; split; try done; lia.
Qed.

Lemma float_le_key (a b : float) : float_le a b = true ↔ keys_rel key_le a b.
Proof.
  unfold float_le, keys_rel, float_key. rewrite leb_spec. unfold SFleb.
  pose proof (SFcompare_key (Prim2SF a) (Prim2SF b)) as H.
  destruct (SFcompare _ _) as [[| |]|], (sf_key (Prim2SF a)) as [ka|],
    (sf_key (Prim2SF b)) as [kb|];
    try done; unfold key_le, key_lt, key_eq in *; split; try done; lia.
Qed.

Lemma float_eq_key (a b : float) : float_eq a b = true ↔ keys_rel key_eq a b.
Proof.
  unfold float_eq, keys_rel, float_key. rewrite FloatAxioms.eqb_spec. unfold SFeqb.
  pose proof (SFcompare_key (Prim2SF a) (Prim2SF b)) as H.
  destruct (SFcompare _ _) as [[| |]|], (sf_key (Prim2SF a)) as [ka|],
    (sf_key (Prim2SF b)) as [kb|];
    try done; unfold key_lt, key_eq in *; split; try done; lia.
Qed.

Lemma float_key_zero : float_key 0%float = Some (0, 0, 0).
Proof. reflexivity. Qed.

Lemma float_key_infinity : float_key infinity = Some (2, 0, 0).
Proof. reflexivity. Qed.

Lemma float_key_neg_infinity : float_key neg_infinity = Some (-2, 0, 0).
Proof. reflexivity. Qed.

(** Comparisons in the hypotheses and in the goal are read through the keys
    and left to linear arithmetic. *)
Ltac float_order :=
  try clear np_log; try clear hmm_score; try clear GaussianHMM_fit;
  unfold float_gt in *;
  repeat match goal with
         | H : float_lt _ _ = true |- _ => apply float_lt_key in H
         | H : float_le _ _ = true |- _ => apply float_le_key in H
         | H : float_eq _ _ = true |- _ => apply float_eq_key in H
         | H : float_lt _ _ = false |- _ =>
             apply not_true_iff_false in H; rewrite float_lt_key in H
         | H : float_le _ _ = false |- _ =>
             apply not_true_iff_false in H; rewrite float_le_key in H
         | H : float_eq _ _ = false |- _ =>
             apply not_true_iff_false in H; rewrite float_eq_key in H
         | |- float_lt _ _ = true => apply float_lt_key
         | |- float_le _ _ = true => apply float_le_key
         | |- float_eq _ _ = true => apply float_eq_key
         | |- float_lt _ _ = false => apply not_true_iff_false; rewrite float_lt_key
         | |- float_le _ _ = false => apply not_true_iff_false; rewrite float_le_key
         | |- float_eq _ _ = false => apply not_true_iff_false; rewrite float_eq_key
         end;
  unfold keys_rel in *;
  rewrite ?float_key_zero, ?float_key_infinity, ?float_key_neg_infinity in *;
  repeat match goal with
         | H : context [float_key ?x] |- _ => destruct (float_key x) as [[[? ?] ?]|]
         | |- context [float_key ?x] => destruct (float_key x) as [[[? ?] ?]|]
         end;
  unfold key_le, key_lt, key_eq in *; simpl in *;
  try tauto; try lia.


Lemma float_gt_irrefl (v : float) : float_gt v v = false.
Proof. float_order. Qed.



(** *** [range] *)

Lemma range_incl_lookup (lo hi : Z) (i : nat) (n : Z) :
  range_incl lo hi !! i = Some n ↔ n = lo + Z.of_nat i ∧ n ≤ hi.
Proof. unfold range_incl. rewrite lookup_seqZ. lia. Qed.

Lemma elem_of_range_incl (lo hi n : Z) : n ∈ range_incl lo hi ↔ lo ≤ n ≤ hi.
Proof. unfold range_incl. rewrite elem_of_seqZ. lia. Qed.

(** *** The running best of a loop *)

Section RunningBest.

Context {A C : Type}.
Variable cmp weak : float → float → bool.
Variable start : float.
Variable cand : C → option (A * float).

Hypothesis cmp_trans : ∀ a b c, cmp a b = true → cmp b c = true → cmp a c = true.
Hypothesis cmp_weak : ∀ a b, cmp a b = true → weak b a = false.
Hypothesis weak_before : ∀ v v' u, cmp v v' = true → weak u v' = false → weak u v = false.
Hypothesis weak_after : ∀ v v' u, cmp v v' = true → cmp u v' = false → weak u v = false.

Lemma best_step_foldl (l : list C) (a0 : A) :
  (foldl (best_step cmp cand) (a0, start) l = (a0, start) ∧
   ∀ c a v, c ∈ l → cand c = Some (a, v) → cmp v start = false) ∨
  (∃ i a v, foldl (best_step cmp cand) (a0, start) l = (a, v) ∧
             winner_at cmp weak start cand l i a v).
Proof using cmp_trans cmp_weak weak_before weak_after.
  induction l as [|x l IH] using rev_ind.
  - left. split; [reflexivity|]. intros c a v Hc. inversion Hc.
  - rewrite foldl_snoc.
    destruct (cand x) as [[a v]|] eqn:Hx.
    + destruct IH as [[-> Hnone]|(i & a' & v' & -> & (c & Hc & Hcc) & Hstart & Hbefore & Hafter)];
        unfold best_step; rewrite Hx; simpl.
      * destruct (cmp v start) eqn:Hcmp.
        -- right. exists (length l), a, v. split; [reflexivity|].
           split; [|split; [done|split]].
           ++ exists x. by rewrite list_lookup_middle.
           ++ intros j c b w Hj Hlj Hcw. rewrite lookup_app_l in Hlj by done.
              apply (weak_after v start w Hcmp).
              eapply Hnone; [|exact Hcw]. by eapply list_elem_of_lookup_2.
           ++ intros j c b w Hj Hlj Hcw. apply lookup_lt_Some in Hlj.
              rewrite length_app in Hlj. simpl in Hlj. lia.
        -- left. split; [reflexivity|]. intros c b w Hc Hcw.
           apply elem_of_app in Hc as [Hc|Hc]; [by eapply Hnone|].
           apply list_elem_of_singleton in Hc. subst c. congruence.
      * right. assert (Hi : (i < length l)%nat) by (by eapply lookup_lt_Some).
        destruct (cmp v v') eqn:Hcmp.
        -- exists (length l), a, v. split; [reflexivity|].
           split; [|split; [by eapply cmp_trans|split]].
           ++ exists x. by rewrite list_lookup_middle.
           ++ intros j c' b w Hj Hlj Hcw. rewrite lookup_app_l in Hlj by done.
              destruct (lt_eq_lt_dec j i) as [[Hlt| ->]|Hgt].
              ** apply (weak_before v v' w Hcmp). eapply Hbefore; eauto.
              ** assert (w = v') as -> by congruence. by apply cmp_weak.
              ** apply (weak_after v v' w Hcmp). eapply Hafter; eauto.
           ++ intros j c' b w Hj Hlj Hcw. apply lookup_lt_Some in Hlj.
              rewrite length_app in Hlj. simpl in Hlj. lia.
        -- exists i, a', v'. split; [reflexivity|]. split; [|split; [done|split]].
           ++ exists c. by rewrite lookup_app_l.
           ++ intros j c' b w Hj Hlj Hcw. rewrite lookup_app_l in Hlj by lia.
              eapply Hbefore; eauto.
           ++ intros j c' b w Hj Hlj Hcw.
              apply lookup_snoc_Some in Hlj as [[Hjl Hlj]|[-> <-]].
              ** eapply Hafter; eauto.
              ** congruence.
    + destruct IH as [[-> Hnone]|(i & a' & v' & -> & (c & Hc & Hcc) & Hstart & Hbefore & Hafter)];
        unfold best_step; rewrite Hx; simpl.
      * left. split; [reflexivity|]. intros c b w Hc Hcw.
        apply elem_of_app in Hc as [Hc|Hc]; [by eapply Hnone|].
        apply list_elem_of_singleton in Hc. subst c. congruence.
      * right. exists i, a', v'. split; [reflexivity|].
        assert (Hi : (i < length l)%nat) by (by eapply lookup_lt_Some).
        split; [|split; [done|split]].
        -- exists c. by rewrite lookup_app_l.
        -- intros j c' b w Hj Hlj Hcw. rewrite lookup_app_l in Hlj by lia.
           eapply Hbefore; eauto.
        -- intros j c' b w Hj Hlj Hcw.
           apply lookup_snoc_Some in Hlj as [[Hjl Hlj]|[-> <-]].
           ++ eapply Hafter; eauto.
           ++ congruence.
Qed.

End RunningBest.

(** The loop that keeps the least score, from [+inf], and the loop that
    keeps the greatest, from [-inf]. *)
Lemma min_loop {A C : Type} (cand : C → option (A * float)) (l : list C) (a0 : A) :
  (foldl (best_step float_lt cand) (a0, infinity) l = (a0, infinity) ∧
   ∀ c a v, c ∈ l → cand c = Some (a, v) → float_lt v infinity = false) ∨
  (∃ i a v, foldl (best_step float_lt cand) (a0, infinity) l = (a, v) ∧
             winner_at float_lt float_le infinity cand l i a v).
Proof.
  apply best_step_foldl; intros; float_order.
Qed.

Lemma max_loop {A C : Type} (cand : C → option (A * float)) (l : list C) (a0 : A) :
  (foldl (best_step float_gt cand) (a0, neg_infinity) l = (a0, neg_infinity) ∧
   ∀ c a v, c ∈ l → cand c = Some (a, v) → float_gt v neg_infinity = false) ∨
  (∃ i a v, foldl (best_step float_gt cand) (a0, neg_infinity) l = (a, v) ∧
             winner_at float_gt (λ u v, float_le v u) neg_infinity cand l i a v).
Proof.
  apply best_step_foldl; intros; float_order.
Qed.

(** *** The loops as instances of the running best *)

Lemma bic_step_best (self : ModelSelector) :
  bic_step self = best_step float_lt (bic_try self).
Proof. reflexivity. Qed.

Lemma dic_step_best (self : ModelSelector) :
  dic_step self = best_step float_gt (dic_try self).
Proof. reflexivity. Qed.

Lemma cv_step_best (self : ModelSelector) (st : sel_state) (n : Z) :
  cv_step self st n = best_step float_gt (cv_outcome self) st n.
Proof.
  unfold cv_step, best_step, cv_outcome, cv_candidate_average.
  by destruct (cv_try self n) as [cm [s c]].
Qed.

Lemma cv_loop_best (self : ModelSelector) (l : list Z) (st : sel_state) :
  foldl (cv_step self) st l = foldl (best_step float_gt (cv_outcome self)) st l.
Proof.
  revert st. induction l as [|n l IH]; intros st; simpl; [done|].
  by rewrite cv_step_best, IH.
Qed.

Lemma candidates_lookup (self : ModelSelector) (k : Z) :
  min_n_components self ≤ k ≤ max_n_components self →
  candidates self !! Z.to_nat (k - min_n_components self) = Some k.
Proof. intros Hk. apply range_incl_lookup. lia. Qed.

Lemma candidates_empty (self : ModelSelector) :
  max_n_components self < min_n_components self → candidates self = [].
Proof.
  intros Hlt. unfold candidates, range_incl, seqZ.
  by replace (Z.to_nat (max_n_components self + 1 - min_n_components self)) with 0%nat by lia.
Qed.

(** *** SelectorBIC *)

Lemma bic_value_BIC (self : ModelSelector) (n : Z) (L : float) :
  bic_value self n L = BIC n (length (lengths self)) L.
Proof. reflexivity. Qed.

Lemma bic_try_Some (self : ModelSelector) (n : Z) (cm : option Model) (b : float) :
  bic_try self n = Some (cm, b) ↔ ∃ m, cm = Some m ∧ bic_candidate self n m b.
Proof.
  unfold bic_try, bic_candidate. split.
  - destruct (base_model self n) as [m|]; simpl; [|discriminate].
    destruct (hmm_score m (X self) (lengths self)) as [L|] eqn:HL; simpl; [|discriminate].
    destruct (bic_value self n L) as [b'|] eqn:Hb; simpl; [|discriminate].
    intros [= <- <-]. exists m. split; [done|]. split; [done|]. exists L.
    split; [done|exact Hb].
  - intros (m & -> & -> & L & HL & Hb). simpl. rewrite HL. simpl.
    change (BIC n (length (lengths self)) L) with (bic_value self n L) in Hb.
    by rewrite Hb.
Qed.



(** *** SelectorDIC *)

(** The inner loop adds to [score_sum] the scores of the words that are not
    the target, in the order of the dict. *)
Lemma dic_others_sum (m : Model) (target : string) (ws : list (string * Xlengths))
    (acc : float) :
  dic_others (Some m) target ws acc
  = sum_scores m (filter (λ wx, wx.1 ≠ target) ws) acc.
Proof.
  revert acc. induction ws as [|[w [x l]] ws IH]; intros acc; simpl; [done|].
  rewrite filter_cons. simpl. destruct (decide (w ≠ target)) as [Hw|Hw]; simpl.
  - destruct (hmm_score m x l) as [s|]; simpl; [|reflexivity]. apply IH.
  - apply IH.
Qed.

Lemma dic_others_L_other (self : ModelSelector) (m : Model) :
  dic_others (Some m) (this_word self) (dict_items (hwords self)) 0%float
  = L_other self m.
Proof. apply dic_others_sum. Qed.

Lemma dic_try_Some (self : ModelSelector) (n : Z) (cm : option Model) (d : float) :
  dict_len (hwords self) ≠ 1%nat →
  dic_try self n = Some (cm, d) ↔ ∃ m, cm = Some m ∧ dic_candidate self n m d.
Proof.
  intros HM. unfold dic_try, dic_candidate, int_truediv, DIC.
  destruct (decide (Z.of_nat (dict_len (hwords self)) - 1 = 0)) as [H0|_]; [lia|].
  split.
  - destruct (base_model self n) as [m|]; simpl; [|discriminate].
    rewrite dic_others_L_other.
    destruct (hmm_score m (X self) (lengths self)) as [L|] eqn:HL; simpl; [|discriminate].
    destruct (L_other self m) as [Lo|] eqn:HLo; simpl; [|discriminate].
    intros [= <- <-]. exists m. split; [done|]. split; [done|]. by exists L, Lo.
  - intros (m & -> & -> & L & Lo & HL & HLo & ->). simpl.
    by rewrite dic_others_L_other, HL, HLo.
Qed.



Lemma foldl_id {S C : Type} (f : S → C → S) (l : list C) (st : S) :
  (∀ st c, c ∈ l → f st c = st) → foldl f st l = st.
Proof.
  intros Hf. induction l as [|c l IH] using rev_ind; [reflexivity|].
  rewrite foldl_snoc, Hf.
  - apply IH. intros st' c' Hc'. apply Hf. apply elem_of_app. by left.
  - apply elem_of_app. right. apply list_elem_of_here.
Qed.

(** C10: with a word map of exactly one word ([M = 1]) the division by
    [M - 1] raises for every candidate, all of them are skipped and
    [SelectorDIC.select] returns no model, whatever the trainer does. *)
Theorem select_dic_single_word (self : ModelSelector) :
  dict_len (hwords self) = 1%nat → select_dic self = None.
Proof.
  intros HM. unfold select_dic, dic_loop.
  assert (Hstep : ∀ st k, dic_step self st k = st).
  { intros st k. unfold dic_step, dic_try, int_truediv. rewrite HM. simpl.
    destruct (py_score _ _ _) as [L|]; simpl; [|reflexivity].
    by destruct (dic_others _ _ _ _) as [Lo|]. }
  by rewrite foldl_id.
Qed.

(** *** SelectorCV *)

Lemma cv_try_model (self : ModelSelector) (n : Z) :
  (cv_try self n).1 = base_model self n.
Proof. unfold cv_try. by destruct (KFold_split _ _). Qed.

Lemma fit_fails_every_fold_fails (self : ModelSelector) (n : Z) :
  base_model self n = None → every_fold_fails self n.
Proof. intros Hn folds train test tx tl _ _ _. by rewrite Hn. Qed.

(** A candidate of which no fold is scored leaves the [try] block with the
    sum and the count it started with. *)
Lemma cv_try_unscored (self : ModelSelector) (n : Z) :
  every_fold_fails self n → cv_try self n = (base_model self n, (0%float, 0%nat)).
Proof.
  intros Hfail. unfold cv_try.
  destruct (KFold_split _ _) as [folds|] eqn:Hsplit; [|reflexivity].
  f_equal. destruct folds as [|[train test] rest]; [reflexivity|]. simpl.
  destruct (combine_sequences train (sequences self)); simpl; [|reflexivity].
  destruct (combine_sequences test (sequences self)) as [[tx tl]|] eqn:Htest;
    simpl; [|reflexivity].
  rewrite (Hfail _ train test tx tl Hsplit); [reflexivity| |exact Htest].
  apply list_elem_of_here.
Qed.

Lemma cv_average_0 : cv_average 0 0 = 0%float.
Proof. reflexivity. Qed.

Lemma cv_unscored_average (self : ModelSelector) (n : Z) :
  every_fold_fails self n → cv_candidate_average self n = 0%float.
Proof.
  intros Hfail. unfold cv_candidate_average.
  by rewrite (cv_try_unscored self n Hfail).
Qed.

Lemma foldl_invariant {S C : Type} (P : S → Prop) (f : S → C → S) (l : list C) (st : S) :
  P st → (∀ st c, c ∈ l → P st → P (f st c)) → P (foldl f st l).
Proof.
  revert st. induction l as [|c l IH]; intros st Hst Hf; simpl; [done|].
  apply IH.
  - apply Hf; [apply list_elem_of_here|done].
  - intros st' c' Hc'. apply Hf. by apply list_elem_of_further.
Qed.

(** The running best score of the cross-validation loop is never NaN. *)
Lemma cv_loop_not_nan (self : ModelSelector) (l : list Z) :
  float_eq (foldl (cv_step self) (None, neg_infinity) l).2
           (foldl (cv_step self) (None, neg_infinity) l).2 = true.
Proof.
  apply (foldl_invariant (λ st : sel_state, float_eq st.2 st.2 = true)); [reflexivity|].
  intros st n _ Hst. rewrite cv_step_best. unfold best_step, cv_outcome. simpl.
  destruct (float_gt (cv_candidate_average self n) st.2) eqn:Hgt; [|done].
  simpl. float_order.
Qed.

(** A running best score that is not below zero stays so. *)
Lemma cv_step_nonneg (self : ModelSelector) (st : sel_state) (n : Z) :
  float_le 0 st.2 = true → float_le 0 (cv_step self st n).2 = true.
Proof.
  intros Hst. rewrite cv_step_best. unfold best_step, cv_outcome. simpl.
  destruct (float_gt (cv_candidate_average self n) st.2) eqn:Hgt; [|done].
  simpl. float_order.
Qed.

(** Once a candidate with average [0.0] has been compared, the running best
    score is not below zero. *)
Lemma cv_after_zero (self : ModelSelector) (l1 l2 : list Z) (n0 : Z) :
  cv_candidate_average self n0 = 0%float →
  float_le 0 (foldl (cv_step self) (None, neg_infinity) (l1 ++ n0 :: l2)).2 = true.
Proof.
  intros H0. rewrite foldl_app. simpl.
  apply (foldl_invariant (λ st : sel_state, float_le 0 st.2 = true)).
  - pose proof (cv_loop_not_nan self l1) as Hnan.
    rewrite cv_step_best. unfold best_step, cv_outcome. simpl. rewrite H0.
    destruct (float_gt 0 (foldl (cv_step self) (None, neg_infinity) l1).2) eqn:Hgt;
      simpl; [reflexivity|].
    float_order.
  - intros st n _. apply cv_step_nonneg.
Qed.

(** C9: a candidate of the cross-validation selector whose fit fails, or of
    which every fold fails to score, has the average [0.0] and is compared
    with the running best as any other candidate; after it, a candidate
    with a negative average leaves the running best as it is, and the final
    best score is not negative. *)
Theorem cv_unscored_candidate_blocks_negative (self : ModelSelector)
    (l1 l2 l3 : list Z) (n0 n : Z) :
  candidates self = l1 ++ n0 :: l2 ++ n :: l3 →
  base_model self n0 = None ∨ every_fold_fails self n0 →
  float_lt (cv_candidate_average self n) 0 = true →
  cv_candidate_average self n0 = 0%float ∧
  (∀ st, cv_step self st n0
         = if float_gt 0 st.2 then (base_model self n0, 0%float) else st) ∧
  cv_step self (foldl (cv_step self) (None, neg_infinity) (l1 ++ n0 :: l2)) n
  = foldl (cv_step self) (None, neg_infinity) (l1 ++ n0 :: l2) ∧
  float_le 0 (cv_loop self).2 = true.
Proof.
  intros Hl Hn0 Hneg.
  assert (Hfail : every_fold_fails self n0)
    by (destruct Hn0; [by apply fit_fails_every_fold_fails|done]).
  pose proof (cv_unscored_average self n0 Hfail) as H0.
  split; [exact H0|]. split; [|split].
  - intros st. unfold cv_step. by rewrite (cv_try_unscored self n0 Hfail).
  - pose proof (cv_after_zero self l1 l2 n0 H0) as Hge.
    rewrite cv_step_best. unfold best_step, cv_outcome. simpl.
    destruct (float_gt (cv_candidate_average self n) _) eqn:Hgt; [|reflexivity].
    exfalso. float_order.
  - unfold cv_loop. rewrite Hl. by apply cv_after_zero.
Qed.

(** *** The folds *)








Lemma KFold_split_None (n_splits n_samples : nat) :
  (n_samples < n_splits)%nat → KFold_split n_splits n_samples = None.
Proof. intros Hlt. unfold KFold_split. by rewrite decide_True. Qed.

Lemma combine_sequences_in_range (idxs : list nat) (seqs : list sequence) :
  Forall (λ i, i < length seqs)%nat idxs → is_Some (combine_sequences idxs seqs).
Proof.
  intros Hin. unfold combine_sequences.
  assert (is_Some (mapM (λ idx, seqs !! idx) idxs)) as [sf ->]; [|by eexists].
  apply mapM_is_Some. eapply Forall_impl; [exact Hin|].
  intros i Hi. by apply lookup_lt_is_Some.
Qed.




(** *** All fits fail *)

Lemma cv_step_model_None (self : ModelSelector) (l : list Z) (st : sel_state) :
  (∀ n, n ∈ l → base_model self n = None) →
  st.1 = None → (foldl (cv_step self) st l).1 = None.
Proof.
  intros Hl Hst. induction l as [|n l IH] using rev_ind; [exact Hst|].
  rewrite foldl_snoc. unfold cv_step at 1.
  pose proof (cv_try_model self n) as Hm.
  destruct (cv_try self n) as [cm [sc c]]. simpl in Hm.
  rewrite Hl in Hm by (apply elem_of_app; right; apply list_elem_of_here). subst cm.
  destruct (float_gt _ _); simpl; [reflexivity|].
  apply IH. intros k Hk. apply Hl. apply elem_of_app. by left.
Qed.

(** C4: whichever the strategy, when the fit fails for every complexity it
    tries (the range of candidates, or the constant complexity), [select]
    returns no model. *)
Theorem select_all_fits_fail (s : selector) (self : ModelSelector) :
  (∀ n, n ∈ tried s self → base_model self n = None) →
  select s self = None.
Proof.
  intros Hall. destruct s; simpl in *.
  - unfold select_constant. apply Hall, list_elem_of_here.
  - unfold select_bic, bic_loop. rewrite foldl_id; [reflexivity|].
    intros st n Hn. unfold bic_step, bic_try. by rewrite (Hall n Hn).
  - unfold select_dic, dic_loop. rewrite foldl_id; [reflexivity|].
    intros st n Hn. unfold dic_step, dic_try. by rewrite (Hall n Hn).
  - unfold select_cv, cv_loop. by apply cv_step_model_None.
Qed.

(** *** The recognizer *)


(** An entry that fails to score leaves the three variables as they are. *)
Lemma recognize_word_fail (item : Xlengths) (st : rec_state) (w : string) (m : option Model) :
  py_score m item.1 item.2 = None → recognize_word item st (w, m) = st.
Proof. intros Hm. destruct st as [[d bs] bw]. simpl. by rewrite Hm. Qed.

Lemma recognize_word_scores (item : Xlengths) (st : rec_state) (wm : string * option Model)
    (w : string) :
  wm.1 ≠ w → (recognize_word item st wm).1.1 !! w = st.1.1 !! w.
Proof.
  intros Hw. destruct st as [[d bs] bw], wm as [w' m]. simpl in *.
  destruct (py_score m item.1 item.2) as [v|]; simpl; [|reflexivity].
  destruct (float_gt v bs); simpl; unfold setdefault;
    (destruct (d !! w'); [reflexivity|by rewrite lookup_insert_ne]).
Qed.

Lemma recognize_filter (item : Xlengths) (models : list (string * option Model))
    (w : string) (st : rec_state) :
  (∀ m, (w, m) ∈ models → py_score m item.1 item.2 = None) →
  foldl (recognize_word item) st (filter (λ wm, wm.1 ≠ w) models)
  = foldl (recognize_word item) st models.
Proof.
  revert st. induction models as [|[w' m] models IH]; intros st Hfail; [reflexivity|].
  rewrite filter_cons. simpl.
  destruct (decide (w' ≠ w)) as [Hne|Heq]; simpl.
  - apply IH. intros m' Hm'. apply Hfail. by apply list_elem_of_further.
  - apply dec_stable in Heq. subst w'.
    rewrite (recognize_word_fail item st w m) by apply Hfail, list_elem_of_here.
    apply IH. intros m' Hm'. apply Hfail. by apply list_elem_of_further.
Qed.

Lemma recognize_scores_other (item : Xlengths) (models : list (string * option Model))
    (w : string) (st : rec_state) :
  (∀ wm, wm ∈ models → wm.1 ≠ w) →
  (foldl (recognize_word item) st models).1.1 !! w = st.1.1 !! w.
Proof.
  revert st. induction models as [|wm models IH]; intros st Hne; [reflexivity|].
  simpl. rewrite IH by (intros wm' Hwm'; by apply Hne, list_elem_of_further).
  apply recognize_word_scores, Hne, list_elem_of_here.
Qed.

Lemma recognize_scores_omit (item : Xlengths) (models : list (string * option Model))
    (w : string) (st : rec_state) :
  (∀ m, (w, m) ∈ models → py_score m item.1 item.2 = None) →
  (foldl (recognize_word item) st models).1.1 !! w = st.1.1 !! w.
Proof.
  intros Hfail. rewrite <- (recognize_filter item models w st Hfail).
  apply recognize_scores_other. intros wm Hwm.
  by apply list_elem_of_filter in Hwm as [Hne _].
Qed.

Lemma recognize_foldl (models : list (string * option Model))
    (test_set : list (Z * Xlengths)) (ps : list (gmap string float)) (gs : list string) :
  foldl (λ '(probabilities, guesses) '(i, item),
           let '(all_scores, _, best_word) := recognize_item models item in
           (probabilities ++ [all_scores], guesses ++ [best_word]))
        (ps, gs) test_set
  = (ps ++ map (λ t, (recognize_item models t.2).1.1) test_set,
     gs ++ map (λ t, (recognize_item models t.2).2) test_set).
Proof.
  revert ps gs. induction test_set as [|[i item] ts IH]; intros ps gs; simpl.
  - by rewrite !app_nil_r.
  - destruct (recognize_item models item) as [[d bs] bw] eqn:Hitem.
    rewrite IH. simpl. by rewrite <- !app_assoc.
Qed.

Lemma recognize_map (models : list (string * option Model)) (test_set : list (Z * Xlengths)) :
  recognize models test_set
  = (map (λ t, (recognize_item models t.2).1.1) test_set,
     map (λ t, (recognize_item models t.2).2) test_set).
Proof. unfold recognize. by rewrite recognize_foldl. Qed.

Lemma recognize_lookup (models : list (string * option Model))
    (test_set : list (Z * Xlengths)) (k : nat) (i : Z) (item : Xlengths) :
  test_set !! k = Some (i, item) →
  (recognize models test_set).1 !! k = Some (recognize_item models item).1.1 ∧
  (recognize models test_set).2 !! k = Some (recognize_item models item).2.
Proof.
  intros Hk. rewrite recognize_map. simpl. by rewrite !list_lookup_fmap, Hk.
Qed.

(** C6: the two lists that [recognize] returns have one entry per test item,
    in the order of the test set: the entry at position [k] is the score
    distribution, respectively the best guess, of the item at position
    [k]. *)
Theorem recognize_aligned (models : list (string * option Model))
    (test_set : list (Z * Xlengths)) :
  length (recognize models test_set).1 = length test_set ∧
  length (recognize models test_set).2 = length test_set ∧
  ∀ k i item,
    test_set !! k = Some (i, item) →
    (recognize models test_set).1 !! k = Some (recognize_item models item).1.1 ∧
    (recognize models test_set).2 !! k = Some (recognize_item models item).2.
Proof.
  split; [|split].
  - rewrite recognize_map. simpl. apply length_map.
  - rewrite recognize_map. simpl. apply length_map.
  - apply recognize_lookup.
Qed.

(** C7: for a test item, a word whose model fails to score it is absent from
    the score distribution of the item and the recognizer answers as if the
    word had no model; when every model fails, the distribution is empty and
    the best guess is the empty label. *)
Theorem recognize_failed_word_omitted (models : list (string * option Model))
    (test_set : list (Z * Xlengths)) (k : nat) (i : Z) (item : Xlengths) (w : string) :
  test_set !! k = Some (i, item) →
  (∀ m, (w, m) ∈ models → py_score m item.1 item.2 = None) →
  ∃ all_scores best_word,
    (recognize models test_set).1 !! k = Some all_scores ∧
    (recognize models test_set).2 !! k = Some best_word ∧
    all_scores !! w = None ∧
    (recognize (filter (λ wm, wm.1 ≠ w) models) test_set).1 !! k = Some all_scores ∧
    (recognize (filter (λ wm, wm.1 ≠ w) models) test_set).2 !! k = Some best_word ∧
    ((∀ w' m, (w', m) ∈ models → py_score m item.1 item.2 = None) →
     all_scores = ∅ ∧ best_word = EmptyString).
Proof.
  intros Hk Hfail.
  destruct (recognize_lookup models test_set k i item Hk) as [Hp Hg].
  destruct (recognize_lookup (filter (λ wm, wm.1 ≠ w) models) test_set k i item Hk)
    as [Hp' Hg'].
  exists (recognize_item models item).1.1, (recognize_item models item).2.
  assert (Hsame : recognize_item (filter (λ wm, wm.1 ≠ w) models) item
                  = recognize_item models item)
    by (by apply recognize_filter).
  rewrite Hsame in Hp', Hg'.
  split; [done|]. split; [done|]. split; [|split; [done|split; [done|]]].
  - unfold recognize_item. by rewrite recognize_scores_omit.
  - intros Hall. unfold recognize_item. rewrite foldl_id; [done|].
    intros st [w' m] Hin. apply recognize_word_fail. by eapply Hall.
Qed.

(** *** Ties *)



Section FirstSeen.

Context {A C : Type}.
Variable cmp weak : float → float → bool.
Variable start : float.
Variable cand : C → option (A * float).
Variable l : list C.
Variable final : A * float.

Hypothesis loop_cases :
  (final.2 = start ∧ ∀ c a v, c ∈ l → cand c = Some (a, v) → cmp v start = false) ∨
  (∃ i a v, final = (a, v) ∧ winner_at cmp weak start cand l i a v).
Hypothesis weak_eq : ∀ u v, weak u v = false → float_eq u v = false.
Hypothesis eq_weak : ∀ u v, float_eq v u = true → weak u v = true.



End FirstSeen.





(** ** Further properties of the selectors *)

(** X1: a model that [SelectorBIC.select] returns is the fitted model of a
    candidate of the range that scored with a criterion below [+inf]; it
    returns no model only when no candidate of the range fits and scores
    with a criterion below [+inf] (a criterion that is [+inf] or NaN never
    replaces the initial best score). *)
Theorem select_bic_sound (self : ModelSelector) :
  match select_bic self with
  | Some m =>
      ∃ n b, min_n_components self ≤ n ≤ max_n_components self ∧
             bic_candidate self n m b ∧ float_lt b infinity = true
  | None =>
      ∀ n m b, min_n_components self ≤ n ≤ max_n_components self →
               bic_candidate self n m b → float_lt b infinity = false
  end.
Proof.
  unfold select_bic, bic_loop, sel_state. rewrite bic_step_best.
  destruct (min_loop (bic_try self) (candidates self) None)
    as [[-> Hnone]|(i & cm & b & -> & (n & Hi & Hn) & Hstart & _)]; simpl.
  - intros n m b Hn Hc.
    assert (bic_try self n = Some (Some m, b)) as Heq by (apply bic_try_Some; eauto).
    eapply Hnone; [|exact Heq]. by apply elem_of_range_incl.
  - apply bic_try_Some in Hn as (m & -> & Hm).
    exists n, b. split; [|done]. apply range_incl_lookup in Hi. lia.
Qed.

(** X2: unless the word map has exactly one word, a model that
    [SelectorDIC.select] returns is the fitted model of a candidate of the
    range that scored the target and every other word with a criterion above
    [-inf]; it returns no model only when there is no such candidate. *)
Theorem select_dic_sound (self : ModelSelector) :
  dict_len (hwords self) ≠ 1%nat →
  match select_dic self with
  | Some m =>
      ∃ n d, min_n_components self ≤ n ≤ max_n_components self ∧
             dic_candidate self n m d ∧ float_gt d neg_infinity = true
  | None =>
      ∀ n m d, min_n_components self ≤ n ≤ max_n_components self →
               dic_candidate self n m d → float_gt d neg_infinity = false
  end.
Proof.
  intros HM. unfold select_dic, dic_loop, sel_state. rewrite dic_step_best.
  destruct (max_loop (dic_try self) (candidates self) None)
    as [[-> Hnone]|(i & cm & d & -> & (n & Hi & Hn) & Hstart & _)]; simpl.
  - intros n m d Hn Hc.
    assert (dic_try self n = Some (Some m, d)) as Heq by (apply dic_try_Some; eauto).
    eapply Hnone; [|exact Heq]. by apply elem_of_range_incl.
  - apply dic_try_Some in Hn as (m & -> & Hm); [|done].
    exists n, d. split; [|done]. apply range_incl_lookup in Hi. lia.
Qed.

(** The winner of the cross-validation loop, when some candidate has an
    average above [-inf]. *)
Lemma cv_loop_winner (self : ModelSelector) (k0 : Z) :
  min_n_components self ≤ k0 ≤ max_n_components self →
  float_gt (cv_candidate_average self k0) neg_infinity = true →
  ∃ n, min_n_components self ≤ n ≤ max_n_components self ∧
       cv_loop self = (base_model self n, cv_candidate_average self n) ∧
       float_gt (cv_candidate_average self n) neg_infinity = true ∧
       (∀ k, min_n_components self ≤ k ≤ max_n_components self →
             float_gt (cv_candidate_average self k) (cv_candidate_average self n) = false) ∧
       (∀ k, min_n_components self ≤ k < n →
             float_le (cv_candidate_average self n) (cv_candidate_average self k) = false).
Proof.
  intros Hk0 Hv0. unfold cv_loop. rewrite cv_loop_best. unfold sel_state.
  destruct (max_loop (cv_outcome self) (candidates self) None)
    as [[_ Hnone]|(i & cm & v & -> & (n & Hi & Hn) & Hstart & Hbefore & Hafter)].
  - rewrite (Hnone k0 (cv_try self k0).1 (cv_candidate_average self k0)) in Hv0;
      [discriminate|by apply elem_of_range_incl|reflexivity].
  - unfold cv_outcome in Hn. injection Hn as <- <-. rewrite cv_try_model.
    pose proof Hi as Hi'. apply range_incl_lookup in Hi' as [Hneq Hnle].
    exists n. split; [lia|]. split; [reflexivity|]. split; [exact Hstart|]. split.
    + intros k Hk. pose proof (candidates_lookup self k Hk) as Hlk.
      destruct (lt_eq_lt_dec (Z.to_nat (k - min_n_components self)) i) as [[Hlt|Heq]|Hgt].
      * pose proof (Hbefore _ k _ _ Hlt Hlk eq_refl) as Hw. simpl in Hw. float_order.
      * rewrite Heq in Hlk. assert (k = n) as -> by congruence. apply float_gt_irrefl.
      * exact (Hafter _ k _ _ Hgt Hlk eq_refl).
    + intros k Hk.
      assert (Hlk : candidates self !! Z.to_nat (k - min_n_components self) = Some k)
        by (apply candidates_lookup; lia).
      assert (Hlt : (Z.to_nat (k - min_n_components self) < i)%nat) by lia.
      exact (Hbefore _ k _ _ Hlt Hlk eq_refl).
Qed.


(** X4: when every candidate of the range fits and some candidate has an
    average above [-inf], [SelectorCV.select] returns a model. *)
Theorem select_cv_all_fit (self : ModelSelector) (k0 : Z) :
  min_n_components self ≤ k0 ≤ max_n_components self →
  float_gt (cv_candidate_average self k0) neg_infinity = true →
  (∀ n, min_n_components self ≤ n ≤ max_n_components self →
        is_Some (base_model self n)) →
  is_Some (select_cv self).
Proof.
  intros Hk0 Hv0 Hfit.
  destruct (cv_loop_winner self k0 Hk0 Hv0) as (n & Hn & Hloop & _).
  unfold select_cv. rewrite Hloop. by apply Hfit.
Qed.

(** X17: when the fit fails for some candidate of the range and every
    candidate that fits has a negative average, [SelectorCV.select] returns
    no model: the failed candidate, compared with the average 0.0, beats
    them all. *)
Theorem select_cv_failed_fit_beats_negative (self : ModelSelector) (n0 : Z) :
  min_n_components self ≤ n0 ≤ max_n_components self →
  base_model self n0 = None →
  (∀ k, min_n_components self ≤ k ≤ max_n_components self →
        is_Some (base_model self k) → float_lt (cv_candidate_average self k) 0 = true) →
  select_cv self = None.
Proof.
  intros Hn0 Hfail Hneg.
  pose proof (cv_unscored_average self n0 (fit_fails_every_fold_fails self n0 Hfail)) as H0.
  assert (Hv0 : float_gt (cv_candidate_average self n0) neg_infinity = true)
    by (by rewrite H0).
  destruct (cv_loop_winner self n0 Hn0 Hv0) as (n & Hn & Hloop & _ & Hmax & _).
  unfold select_cv. rewrite Hloop. simpl.
  destruct (base_model self n) as [m|] eqn:Hm; [|reflexivity].
  exfalso. pose proof (Hmax n0 Hn0) as Hle. rewrite H0 in Hle.
  assert (Hlt : float_lt (cv_candidate_average self n) 0 = true)
    by (apply Hneg; [done|by rewrite Hm]).
  float_order.
Qed.

(** X5: for a word with fewer training sequences than folds every candidate
    has the average 0.0, so [SelectorCV.select] returns what [base_model]
    gave for the smallest complexity of the range, whatever the scores. *)
Theorem select_cv_short_word (self : ModelSelector) :
  (length (sequences self) < KFold_n_splits)%nat →
  min_n_components self ≤ max_n_components self →
  select_cv self = base_model self (min_n_components self).
Proof.
  intros Hshort Hrange.
  assert (Hzero : ∀ k, cv_candidate_average self k = 0%float).
  { intros k. unfold cv_candidate_average, cv_try.
    rewrite (KFold_split_None _ _ Hshort). apply cv_average_0. }
  assert (Hmin : min_n_components self ≤ min_n_components self ≤ max_n_components self)
    by lia.
  assert (Hv0 : float_gt (cv_candidate_average self (min_n_components self)) neg_infinity
                = true) by (by rewrite Hzero).
  destruct (cv_loop_winner self _ Hmin Hv0) as (n & Hn & Hloop & _ & _ & Hfirst).
  unfold select_cv. rewrite Hloop. simpl.
  destruct (decide (n = min_n_components self)) as [->|Hne]; [reflexivity|].
  exfalso. specialize (Hfirst (min_n_components self)).
  rewrite !Hzero in Hfirst. assert (float_le 0 0 = false) by (apply Hfirst; lia).
  discriminate.
Qed.

(** X6: with [max_n_components] below [min_n_components] the range is empty
    and the BIC, DIC and CV selectors return no model, whatever the
    trainer does. *)
Theorem select_empty_range (self : ModelSelector) :
  max_n_components self < min_n_components self →
  select_bic self = None ∧ select_dic self = None ∧ select_cv self = None.
Proof.
  intros Hlt. unfold select_bic, select_dic, select_cv, bic_loop, dic_loop, cv_loop.
  by rewrite (candidates_empty self Hlt).
Qed.

(** X7: the number of parameters [p] of the BIC penalty, as the loop body
    computes it, grows strictly with the number of states. *)
Theorem bic_params_grow (self : ModelSelector) (n1 n2 : Z) :
  0 ≤ n1 < n2 → bic_params self n1 < bic_params self n2.
Proof. intros Hn. unfold bic_params. nia. Qed.

(** *** The sum and the count of the cross-validation loop *)

Lemma cv_folds_prefix (self : ModelSelector) (cm : option Model)
    (folds : list (list nat * list nat)) (acc : float * nat) :
  cv_folds self cm folds acc
  = (sum_floats acc.1 (scored_prefix (map (fold_score self cm) folds)),
     (acc.2 + length (scored_prefix (map (fold_score self cm) folds)))%nat).
Proof.
  revert acc. induction folds as [|[train test] folds IH]; intros [sc c]; simpl.
  - f_equal. lia.
  - unfold fold_score at 1 3. simpl.
    destruct (_ ← combine_sequences train (sequences self);
              '(test_x, test_lengths) ← combine_sequences test (sequences self);
              py_score cm test_x test_lengths) as [s|]; simpl.
    + rewrite IH. simpl. f_equal. lia.
    + f_equal. lia.
Qed.

(** X9: the average of a candidate of the cross-validation selector is taken
    over the folds that come before the first fold that raises: it is the
    sum of their held-out scores, added from left to right, divided by their
    number, and 0.0 when the first fold already raises. The folds after a
    failure are not scored. *)
Theorem cv_average_scored_prefix (self : ModelSelector) (n : Z)
    (folds : list (list nat * list nat)) :
  KFold_split KFold_n_splits (length (sequences self)) = Some folds →
  cv_candidate_average self n
  = match scored_prefix (map (fold_score self (base_model self n)) folds) with
    | [] => 0%float
    | s :: scores =>
        (sum_floats 0 (s :: scores) / float_of_Z (Z.of_nat (length (s :: scores))))%float
    end.
Proof.
  intros Hsplit. unfold cv_candidate_average, cv_try. rewrite Hsplit. simpl.
  rewrite cv_folds_prefix. simpl.
  destruct (scored_prefix _) as [|s scores]; [reflexivity|].
  unfold cv_average. by rewrite decide_False by (simpl; lia).
Qed.

Lemma fold_score_train (self : ModelSelector) (cm : option Model)
    (train train' test : list nat) :
  Forall (λ i, i < length (sequences self))%nat train →
  Forall (λ i, i < length (sequences self))%nat train' →
  fold_score self cm (train, test) = fold_score self cm (train', test).
Proof.
  intros Ht Ht'. unfold fold_score. simpl.
  destruct (combine_sequences_in_range train _ Ht) as [x ->].
  by destruct (combine_sequences_in_range train' _ Ht') as [x' ->].
Qed.

(** X10: the cross-validation loop does not use the training part of a
    fold: two lists of folds with the same held-out parts, and training
    indices within the sequences of the word, give the same sum and
    count. The candidate model is the one fitted on all the sequences. *)
Theorem cv_folds_ignore_train (self : ModelSelector) (cm : option Model)
    (folds folds' : list (list nat * list nat)) (acc : float * nat) :
  folds.*2 = folds'.*2 →
  Forall (λ f, Forall (λ i, i < length (sequences self))%nat f.1) folds →
  Forall (λ f, Forall (λ i, i < length (sequences self))%nat f.1) folds' →
  cv_folds self cm folds acc = cv_folds self cm folds' acc.
Proof.
  intros Htest Hin Hin'. rewrite !cv_folds_prefix.
  assert (Heq : map (fold_score self cm) folds = map (fold_score self cm) folds').
  { revert folds' Htest Hin'.
    induction folds as [|[train test] folds IH]; intros [|[train' test'] folds'] Htest Hin';
      simpl in *; try discriminate; [reflexivity|].
    injection Htest as -> Htest.
    apply Forall_cons in Hin as [Ht Hin]. apply Forall_cons in Hin' as [Ht' Hin'].
    f_equal; [by apply fold_score_train|by apply IH]. }
  by rewrite Heq.
Qed.

(** *** The constructor *)

Lemma filter_other_keys {V : Type} (l : list (string * V)) (w : string) :
  w ∉ l.*1 → filter (λ wx, wx.1 ≠ w) l = l.
Proof.
  induction l as [|[w' v'] l IH]; intros Hw; [reflexivity|].
  rewrite filter_cons. simpl in *. apply not_elem_of_cons in Hw as [Hne Hw].
  rewrite decide_True by done. by rewrite IH.
Qed.

Lemma filter_key_length {V : Type} (l : list (string * V)) (w : string) (v : V) :
  NoDup (l.*1) → (list_to_map l : gmap string V) !! w = Some v →
  (1 ≤ length l)%nat ∧ length (filter (λ wx, wx.1 ≠ w) l) = (length l - 1)%nat.
Proof.
  induction l as [|[w' v'] l IH]; intros Hnd Hw.
  - simpl in Hw. by rewrite lookup_empty in Hw.
  - simpl in Hnd. apply NoDup_cons in Hnd as [Hw' Hnd].
    split; [simpl; lia|]. rewrite filter_cons. simpl.
    destruct (decide (w' ≠ w)) as [Hne|Heq].
    + simpl in Hw. rewrite lookup_insert_ne in Hw by done.
      destruct (IH Hnd Hw) as [Hlen Hfilter]. simpl. lia.
    + apply dec_stable in Heq. subst w'. rewrite filter_other_keys by done. simpl. lia.
Qed.

(** X12: a selector that [__init__] built holds the data of its target: the
    target is a word of the word map with the flattened data [(X, lengths)],
    so the word map is not empty and the words that the DIC selector sums
    over are all the words but one, [M - 1] of them. *)
Theorem init_target (all_word_sequences : pydict (list sequence))
    (all_word_Xlengths : pydict Xlengths) (word : string)
    (n_const min_n max_n seed : Z) (verb : bool) (self : ModelSelector) :
  init all_word_sequences all_word_Xlengths word n_const min_n max_n seed verb = Some self →
  this_word self = word ∧
  dict_get (words self) word = Some (sequences self) ∧
  dict_get (hwords self) word = Some (X self, lengths self) ∧
  (1 ≤ dict_len (hwords self))%nat ∧
  length (other_words self) = (dict_len (hwords self) - 1)%nat.
Proof.
  unfold init. intros Hinit.
  destruct (dict_get all_word_sequences word) as [seqs|] eqn:Hs; simpl in Hinit;
    [|discriminate].
  destruct (dict_get all_word_Xlengths word) as [[x l]|] eqn:Hx; simpl in Hinit;
    [|discriminate].
  injection Hinit as <-. unfold other_words, dict_len. simpl.
  split; [reflexivity|]. split; [done|]. split; [done|].
  apply (filter_key_length _ word (x, l)); [apply dict_NoDup|exact Hx].
Qed.

(** ** Further properties of the recognizer *)

Lemma recognize_word_scores_eq (item : Xlengths) (st : rec_state) (w : string)
    (m : option Model) :
  st.1.1 !! w = None →
  (recognize_word item st (w, m)).1.1 !! w = py_score m item.1 item.2.
Proof.
  intros Hw. destruct st as [[d bs] bw]. simpl in *.
  destruct (py_score m item.1 item.2) as [v|]; simpl; [|done].
  destruct (float_gt v bs); simpl; unfold setdefault; rewrite Hw;
    apply lookup_insert_eq.
Qed.

Lemma recognize_scores_lookup (item : Xlengths) (models : list (string * option Model))
    (st : rec_state) (w : string) (m : option Model) :
  NoDup (models.*1) → (w, m) ∈ models → st.1.1 !! w = None →
  (foldl (recognize_word item) st models).1.1 !! w = py_score m item.1 item.2.
Proof.
  revert st. induction models as [|[w' m'] models IH]; intros st Hnd Hin Hst.
  - inversion Hin.
  - simpl in Hnd. apply NoDup_cons in Hnd as [Hw' Hnd].
    apply elem_of_cons in Hin as [[= -> ->]|Hin]; simpl.
    + rewrite recognize_scores_other.
      * by apply recognize_word_scores_eq.
      * intros [w2 m2] Hin2 Heq. simpl in Heq. subst w2.
        apply Hw'. apply list_elem_of_fmap. by exists (w', m2).
    + apply IH; [done|done|]. rewrite recognize_word_scores; [done|].
      simpl. intros Heq. subst w'. apply Hw'. apply list_elem_of_fmap. by exists (w, m).
Qed.

(** X13: for models with one entry per word, as a dict holds them, the score
    distribution of a test item is the map of the models through the
    scoring: a word is in it exactly when its model scores the item, with
    that score. *)
Theorem recognize_distribution (models : list (string * option Model)) (item : Xlengths) :
  NoDup (models.*1) →
  (recognize_item models item).1.1
  = omap (λ m, py_score m item.1 item.2)
         (list_to_map models : gmap string (option Model)).
Proof.
  intros Hnd. apply map_eq. intros w. rewrite lookup_omap.
  destruct ((list_to_map models : gmap string (option Model)) !! w) as [m|] eqn:Hw; simpl.
  - apply elem_of_list_to_map in Hw; [|done].
    unfold recognize_item. by apply recognize_scores_lookup.
  - apply not_elem_of_list_to_map in Hw.
    unfold recognize_item. rewrite recognize_scores_other; [done|].
    intros wm Hwm Heq. apply Hw. apply list_elem_of_fmap. by exists wm.
Qed.


(** X15: recognizing a test set in two batches and appending the results
    gives what recognizing it at once gives. *)
Theorem recognize_app (models : list (string * option Model))
    (ts1 ts2 : list (Z * Xlengths)) :
  recognize models (ts1 ++ ts2)
  = ((recognize models ts1).1 ++ (recognize models ts2).1,
     (recognize models ts1).2 ++ (recognize models ts2).2).
Proof. rewrite !recognize_map. simpl. by rewrite !map_app. Qed.

(** X16: the keys of the test set play no part: two test sets that hold the
    same data in the same order give the same lists, so the output follows
    the order of iteration, not the item ids. *)
Theorem recognize_ignores_ids (models : list (string * option Model))
    (ts ts' : list (Z * Xlengths)) :
  ts.*2 = ts'.*2 → recognize models ts = recognize models ts'.
Proof.
  intros Hdata. rewrite !recognize_map.
  assert (Hmap : ∀ (B : Type) (f : Xlengths → B) (l : list (Z * Xlengths)),
            map (λ t, f t.2) l = map f (l.*2)).
  { intros B f l. induction l as [|t l IH]; simpl; [done|]. by rewrite IH. }
  by rewrite (Hmap _ (λ x, (recognize_item models x).1.1)),
            (Hmap _ (λ x, (recognize_item models x).2)), Hdata,
            <- (Hmap _ (λ x, (recognize_item models x).1.1)),
            <- (Hmap _ (λ x, (recognize_item models x).2)).
Qed.

End Selectors.

(** ** Worked examples on the toy trainer *)

Ltac list_cases H :=
  repeat (apply elem_of_cons in H as [->|H]); [..|by apply elem_of_nil in H].

Lemma fish_candidates : candidates fish_selector = [2; 3; 4].
Proof. reflexivity. Qed.

(** The three held-out folds of FISH under the model of two states, then
    of four states; with three states the fit fails and the first fold
    already raises. *)
Lemma fish_cv_try_2 :
  cv_try (toy_fit [3]) toy_score fish_selector 2 = (Some 2, ((-54)%float, 3%nat)).
Proof. vm_compute. reflexivity. Qed.

Lemma fish_cv_try_3 :
  cv_try (toy_fit [3]) toy_score fish_selector 3 = (None, (0%float, 0%nat)).
Proof. vm_compute. reflexivity. Qed.

Lemma fish_cv_try_4 :
  cv_try (toy_fit [3]) toy_score fish_selector 4 = (Some 4, ((-48)%float, 3%nat)).
Proof. vm_compute. reflexivity. Qed.

(** C1: FISH, complexities 2 to 4, the fit failing for 3 states only. The
    candidates 2 and 4 fit and are scored on every fold, with the averages
    -18 and -16, yet the loop ends on the failed candidate: its average 0.0
    beats -18, it sets [best_model] to [None], and [select] returns no
    model. *)
Theorem select_cv_failed_fit_wins :
  base_model (toy_fit [3]) fish_selector 2 = Some 2 ∧
  base_model (toy_fit [3]) fish_selector 3 = None ∧
  base_model (toy_fit [3]) fish_selector 4 = Some 4 ∧
  cv_candidate_average (toy_fit [3]) toy_score fish_selector 2 = (-18)%float ∧
  cv_candidate_average (toy_fit [3]) toy_score fish_selector 4 = (-16)%float ∧
  cv_loop (toy_fit [3]) toy_score fish_selector = (None, 0%float) ∧
  select_cv (toy_fit [3]) toy_score fish_selector = None.
Proof.
  split; [reflexivity|]. split; [reflexivity|]. split; [reflexivity|].
  split; [vm_compute; reflexivity|]. split; [vm_compute; reflexivity|].
  split; vm_compute; reflexivity.
Qed.

(** FISH with the fit failing for 4 states. The training log-likelihoods are
    -54 (2 states) and -51 (3 states); with the stand-in for the logarithm
    the criteria are [108 + 15 * 2 = 138] and [102 + 26 * 2 = 154]: the
    model of 2 states is returned. *)
Example select_bic_fish :
  bic_loop (toy_fit [4]) toy_score toy_log fish_selector = (Some 2, 138%float) ∧
  select_bic (toy_fit [4]) toy_score toy_log fish_selector = Some 2.
Proof. split; vm_compute; reflexivity. Qed.



(** FISH against CAT, every fit succeeding. Both words have three frames, so
    every candidate has [DIC = 0]: the three candidates tie and the first
    one, of 2 states, is returned. *)
Example select_dic_fish :
  dic_try (toy_fit []) toy_score fish_selector 2 = Some (Some 2, 0%float) ∧
  dic_try (toy_fit []) toy_score fish_selector 3 = Some (Some 3, 0%float) ∧
  dic_try (toy_fit []) toy_score fish_selector 4 = Some (Some 4, 0%float) ∧
  select_dic (toy_fit []) toy_score fish_selector = Some 2.
Proof. repeat split; vm_compute; reflexivity. Qed.



(** FISH alone in the word map: no model, although every fit succeeds. *)
Lemma select_dic_single_word_witness :
  select_dic (toy_fit []) toy_score lone_fish_selector = None.
Proof. apply select_dic_single_word. vm_compute. reflexivity. Defined.

(** Every fit failing: none of the four strategies returns a model. *)
Lemma select_all_fits_fail_witness :
  select (toy_fit [3]) toy_score toy_log SelectorConstant fish_selector = None ∧
  select (toy_fit [2; 3; 4]) toy_score toy_log SelectorBIC fish_selector = None ∧
  select (toy_fit [2; 3; 4]) toy_score toy_log SelectorDIC fish_selector = None ∧
  select (toy_fit [2; 3; 4]) toy_score toy_log SelectorCV fish_selector = None.
Proof.
  split; [|split; [|split]]; apply select_all_fits_fail; intros n Hn;
    simpl in Hn; list_cases Hn; reflexivity.
Defined.

(** FISH with the fit failing for 3 states: the failed candidate is compared
    with the average 0.0, and the candidate of 4 states, whose average is
    -16, leaves the running best as it is. *)
Lemma cv_unscored_candidate_blocks_negative_witness :
  cv_candidate_average (toy_fit [3]) toy_score fish_selector 3 = 0%float ∧
  cv_step (toy_fit [3]) toy_score fish_selector
    (foldl (cv_step (toy_fit [3]) toy_score fish_selector) (None, neg_infinity) [2; 3]) 4
  = foldl (cv_step (toy_fit [3]) toy_score fish_selector) (None, neg_infinity) [2; 3] ∧
  float_le 0 (cv_loop (toy_fit [3]) toy_score fish_selector).2 = true.
Proof.
  destruct (cv_unscored_candidate_blocks_negative (toy_fit [3]) toy_score fish_selector
              [2] [] [] 3 4) as (H0 & _ & Hkeep & Hfinal).
  - reflexivity.
  - left. reflexivity.
  - vm_compute. reflexivity.
  - split; [exact H0|]. split; [exact Hkeep|exact Hfinal].
Defined.



(** Two test items: two score distributions and two guesses, the second of
    each for the second item. *)
Lemma recognize_aligned_witness :
  length (recognize toy_score toy_models toy_test_set).1 = 2%nat ∧
  length (recognize toy_score toy_models toy_test_set).2 = 2%nat ∧
  (recognize toy_score toy_models toy_test_set).1 !! 1%nat
  = Some (recognize_item toy_score toy_models cat_Xlengths).1.1 ∧
  (recognize toy_score toy_models toy_test_set).2 !! 1%nat
  = Some (recognize_item toy_score toy_models cat_Xlengths).2.
Proof.
  destruct (recognize_aligned toy_score toy_models toy_test_set) as (Hp & Hg & Hat).
  split; [exact Hp|]. split; [exact Hg|].
  apply (Hat 1%nat 1 cat_Xlengths). reflexivity.
Defined.

(** CAT has no model: it is absent from the distribution of the first
    item. *)
Lemma recognize_failed_word_omitted_witness :
  ∃ all_scores best_word,
    (recognize toy_score failing_models toy_test_set).1 !! 0%nat = Some all_scores ∧
    (recognize toy_score failing_models toy_test_set).2 !! 0%nat = Some best_word ∧
    all_scores !! "CAT" = None.
Proof.
  destruct (recognize_failed_word_omitted toy_score failing_models toy_test_set
              0%nat 0 fish_Xlengths "CAT")
    as (all_scores & best_word & Hp & Hg & Hw & _).
  - reflexivity.
  - intros m Hm. unfold failing_models in Hm.
    apply elem_of_cons in Hm as [[=]|Hm].
    apply elem_of_cons in Hm as [[= ->]|Hm]; [reflexivity|].
    by apply elem_of_nil in Hm.
  - exists all_scores, best_word. by repeat split.
Defined.

(** The data of FISH under the models of 5 states (FISH) and 3 states
    (CAT): the scores are -45 and -51 and the higher one wins. *)
Example recognize_fish :
  rec_best (recognize_item toy_score toy_models fish_Xlengths) = ("FISH", (-45)%float) ∧
  (recognize_item toy_score toy_models fish_Xlengths).1.1 !! "FISH" = Some (-45)%float ∧
  (recognize_item toy_score toy_models fish_Xlengths).1.1 !! "CAT" = Some (-51)%float ∧
  (recognize toy_score toy_models toy_test_set).2 = ["FISH"; "FISH"].
Proof. repeat split; vm_compute; reflexivity. Qed.


(** [__init__] on the two toy maps builds the selector of FISH. *)
Example init_fish :
  init toy_sequences toy_Xlengths "FISH" 3 2 4 14 false = Some fish_selector.
Proof. reflexivity. Qed.

(** ** Worked examples for the further properties *)

Lemma select_dic_sound_witness :
  ∃ n d, min_n_components fish_selector ≤ n ≤ max_n_components fish_selector ∧
         dic_candidate (toy_fit []) toy_score fish_selector n 2 d ∧
         float_gt d neg_infinity = true.
Proof.
  assert (Hsize : dict_len (hwords fish_selector) ≠ 1%nat) by (vm_compute; lia).
  pose proof (select_dic_sound (toy_fit []) toy_score fish_selector Hsize) as Hsound.
  destruct select_dic_fish as (_ & _ & _ & Hsel). rewrite Hsel in Hsound. exact Hsound.
Defined.


Lemma select_cv_all_fit_witness :
  is_Some (select_cv (toy_fit []) toy_score fish_selector).
Proof.
  apply (select_cv_all_fit (toy_fit []) toy_score fish_selector 2).
  - simpl. lia.
  - vm_compute. reflexivity.
  - intros n _. by exists n.
Defined.

Lemma select_cv_short_word_witness :
  select_cv (toy_fit []) toy_score cat_selector = base_model (toy_fit []) cat_selector 2.
Proof.
  apply (select_cv_short_word (toy_fit []) toy_score cat_selector).
  - vm_compute. lia.
  - simpl. lia.
Defined.

Lemma select_empty_range_witness :
  select_bic (toy_fit []) toy_score toy_log empty_range_selector = None ∧
  select_dic (toy_fit []) toy_score empty_range_selector = None ∧
  select_cv (toy_fit []) toy_score empty_range_selector = None.
Proof. apply select_empty_range. simpl. lia. Defined.

Lemma bic_params_grow_witness :
  bic_params fish_selector 2 < bic_params fish_selector 3.
Proof. apply bic_params_grow. lia. Defined.

Lemma cv_average_scored_prefix_witness :
  cv_candidate_average (toy_fit []) toy_score fish_selector 2
  = match scored_prefix
            (map (fold_score toy_score fish_selector (base_model (toy_fit []) fish_selector 2))
                 [([1; 2], [0]); ([0; 2], [1]); ([0; 1], [2])]%nat) with
    | [] => 0%float
    | s :: scores =>
        (sum_floats 0 (s :: scores) / float_of_Z (Z.of_nat (length (s :: scores))))%float
    end.
Proof. apply cv_average_scored_prefix. reflexivity. Defined.

Lemma cv_folds_ignore_train_witness :
  cv_folds toy_score fish_selector (Some 2) [([1; 2], [0])]%nat (0%float, 0%nat)
  = cv_folds toy_score fish_selector (Some 2) [([], [0])]%nat (0%float, 0%nat).
Proof.
  apply cv_folds_ignore_train.
  - reflexivity.
  - repeat constructor; simpl; lia.
  - repeat constructor.
Defined.

Lemma init_target_witness :
  this_word fish_selector = "FISH" ∧
  dict_get (words fish_selector) "FISH" = Some (sequences fish_selector) ∧
  dict_get (hwords fish_selector) "FISH" = Some (X fish_selector, lengths fish_selector) ∧
  (1 ≤ dict_len (hwords fish_selector))%nat ∧
  length (other_words fish_selector) = (dict_len (hwords fish_selector) - 1)%nat.
Proof. apply (init_target _ _ _ _ _ _ _ _ _ init_fish). Defined.

Lemma toy_models_NoDup : NoDup (toy_models.*1).
Proof.
  apply NoDup_cons. split; [|apply NoDup_singleton].
  intros Hin. by apply list_elem_of_singleton in Hin.
Qed.

Lemma recognize_distribution_witness :
  (recognize_item toy_score toy_models fish_Xlengths).1.1
  = omap (λ m, py_score toy_score m fish_Xlengths.1 fish_Xlengths.2)
         (list_to_map toy_models : gmap string (option Z)).
Proof. apply recognize_distribution, toy_models_NoDup. Defined.


Lemma recognize_ignores_ids_witness :
  recognize toy_score toy_models toy_test_set
  = recognize toy_score toy_models relabelled_test_set.
Proof. by apply recognize_ignores_ids. Defined.

Lemma select_cv_failed_fit_beats_negative_witness :
  select_cv (toy_fit [3]) toy_score fish_selector = None.
Proof.
  apply (select_cv_failed_fit_beats_negative (toy_fit [3]) toy_score fish_selector 3).
  - simpl. lia.
  - reflexivity.
  - simpl. intros k Hk Hfit.
    assert (k = 2 ∨ k = 3 ∨ k = 4) as [-> | [-> | ->]] by lia.
    + vm_compute. reflexivity.
    + by destruct Hfit.
    + vm_compute. reflexivity.
Defined.
